(** * Structured errors and their HTTP rendering (go-mod-core-contracts)

    A shallow embedding of [models/errors.go] (package [models]) and of the
    response helpers of package [http] that consume it.

    Conventions of the embedding.
    - A Go [string] is a [string]; a [[]byte] is a [list Byte.byte].
    - A value of the interface type [error] is a term of the inductive
      [error]: the nil interface, the standard library's two concrete error
      types ([errors.New] and the [%w] form of [fmt.Errorf]), and the two
      types of this package.  [CommonEdgexError] holds an [error], so the two
      types are declared together.
    - [http.ResponseWriter] is an interface whose implementation belongs to
      the caller; a writer is modelled by the sequence of method calls it has
      received.
    - A Go run-time panic is the [Panic] result. *)

From Stdlib Require Import ZArith String Ascii List Decimal DecimalString.
From stdpp Require Import gmap strings list fin_maps.

(** ** Run-time panics *)

Inductive panic : Type :=
| IndexOutOfRange (index len : nat)  (* index out of range [index] with length len *)
| NilDereference.                    (* invalid memory address or nil pointer dereference *)

Inductive result (A : Type) : Type :=
| Ok (a : A)
| Panic (p : panic).

Arguments Ok {A} a.
Arguments Panic {A} p.

(** Sequencing stops at the first panic; [x ← r; k] is stdpp's notation
    for it. *)
#[global] Instance result_ret : MRet result := fun A a => Ok a.
#[global] Instance result_bind : MBind result := fun A B k r =>
  match r with
  | Ok a => k a
  | Panic p => Panic p
  end.

(** ** Package models *)

Module models.

(** [type Code string] *)
Abbreviation Code := string (only parsing).

Definition KindUnknown                 : Code := "Unknown".
Definition KindDatabaseError           : Code := "Database".
Definition KindCommunicationError      : Code := "Communication".
Definition KindEntityDoesNotExistError : Code := "NotFound".
Definition KindEntityStateError        : Code := "InvalidState".
Definition KindServerError             : Code := "Unknown/Unexpected".
Definition KindLimitExceeded           : Code := "LimitExceeded".

(** The seven constants of the [const] block, in declaration order. *)
Definition Kinds : list Code :=
  [ KindUnknown; KindDatabaseError; KindCommunicationError;
    KindEntityDoesNotExistError; KindEntityStateError; KindServerError;
    KindLimitExceeded ].

(** Values of the interface [error].
    - [nil]: the nil interface value.
    - [errorString s]: the result of [errors.New(s)]; it has no [Unwrap].
    - [wrapError msg err]: the result of [fmt.Errorf] with a [%w] verb;
      [Error()] is the already formatted [msg] and [Unwrap()] is [err].
    - [ErrContractInvalid errMsg]: the struct of this package.
    - [CE ce]: a [CommonEdgexError] held by value, which is what
      [NewCommonEdgexError] returns and what the target of [errors.As] in
      [Kind] and [ToHttpResponse] matches. *)
Inductive error : Type :=
| nil
| errorString (s : string)
| wrapError (msg : string) (err : error)
| ErrContractInvalid (errMsg : string)
| CE (ce : CommonEdgexError)
with CommonEdgexError : Type :=
| mkCommonEdgexError (op : string) (Kind : Code) (Message : string) (err : error).

(** Induction over both types at once. *)
Scheme error_mut := Induction for error Sort Prop
  with CommonEdgexError_mut := Induction for CommonEdgexError Sort Prop.

(** The zero value [var e CommonEdgexError]. *)
Definition zero : CommonEdgexError := mkCommonEdgexError "" "" "" nil.

(** Fields and methods of the struct. *)
Module CommonEdgexError.

Definition op (ce : CommonEdgexError) : string :=
  let 'mkCommonEdgexError o _ _ _ := ce in o.
Definition Kind (ce : CommonEdgexError) : Code :=
  let 'mkCommonEdgexError _ k _ _ := ce in k.
Definition Message (ce : CommonEdgexError) : string :=
  let 'mkCommonEdgexError _ _ m _ := ce in m.
Definition err (ce : CommonEdgexError) : error :=
  let 'mkCommonEdgexError _ _ _ e := ce in e.

(** [func (ce CommonEdgexError) Unwrap() error] *)
Definition Unwrap (ce : CommonEdgexError) : error := err ce.

(** [func (ce CommonEdgexError) Is(err error) bool]: a switch on the
    dynamic type of the argument. *)
Definition Is (ce : CommonEdgexError) (e : error) : bool :=
  match e with
  | CE _ => true
  | _ => false
  end.

End CommonEdgexError.

(** [NewErrContractInvalid] *)
Definition NewErrContractInvalid (message : string) : error :=
  ErrContractInvalid message.

(** [errors.Unwrap]: the result of the value's [Unwrap] method when it has
    one, nil otherwise. *)
Definition Unwrap (e : error) : error :=
  match e with
  | wrapError _ inner => inner
  | CE ce => CommonEdgexError.Unwrap ce
  | _ => nil
  end.

(** [errors.As(err, &e)] for a target [e] of type [CommonEdgexError]: the
    loop [for err != nil { if the dynamic type of err is the target's type,
    store and return true; err = Unwrap(err) }; return false].  [Some ce]
    is "true, with [ce] stored in the target"; [None] is "false, target
    untouched".  No type of the model has an [As] method. *)
Fixpoint errors_As (e : error) : option CommonEdgexError :=
  match e with
  | nil => None
  | CE ce => Some ce
  | wrapError _ inner => errors_As inner
  | errorString _ => None
  | ErrContractInvalid _ => None
  end.

(** [err != nil] *)
Definition is_nil (e : error) : bool :=
  match e with
  | nil => true
  | _ => false
  end.

(** [e.Error()] through the interface, and the method of
    [CommonEdgexError] it dispatches to.  Calling a method on the nil
    interface panics. *)
Fixpoint Error (e : error) : result string :=
  match e with
  | nil => Panic NilDereference
  | errorString s => Ok s
  | wrapError msg _ => Ok msg
  | ErrContractInvalid errMsg => Ok errMsg
  | CE ce => CommonEdgexError_Error ce
  end
with CommonEdgexError_Error (ce : CommonEdgexError) : result string :=
  match ce with
  | mkCommonEdgexError op _ Message err =>
      if is_nil err then Ok Message
      else
        nested ← Error err;
        Ok (op +:+ " " +:+ Message +:+ ": " +:+ nested)
  end.

(** A frame of the call stack as [runtime.FuncForPC] and [FileLine]
    describe it. *)
Record Frame : Type := mkFrame
  { file : string;
    Name : string;
    line : Z }.

(** [fmt.Sprintf] of the verb [%d]. *)
Definition fmt_d (n : Z) : string := NilZero.string_of_int (Z.to_int n).

Definition newline : string := String (ascii_of_nat 10) EmptyString.

(** [addCallerInformation]: [runtime.Callers(3, pc)] skips [Callers]
    itself, [addCallerInformation] and [NewCommonEdgexError], so [pc[0]] is
    the frame of the caller of [NewCommonEdgexError]; the call stack is
    run-time state and that frame is passed explicitly. *)
Definition addCallerInformation (caller : Frame) : string :=
  "[" +:+ file caller +:+ "]-" +:+ Name caller +:+ "(line " +:+
    fmt_d (line caller) +:+ ")" +:+ newline.

(** [NewCommonEdgexError] *)
Definition NewCommonEdgexError (caller : Frame) (kind : Code)
    (message : string) (wrappedError : error) : CommonEdgexError :=
  mkCommonEdgexError (addCallerInformation caller) kind message wrappedError.

(** [func Kind(err error) Code] *)
Definition Kind (err : error) : Code :=
  match errors_As err with
  | None => KindUnknown
  | Some e => CommonEdgexError.Kind e
  end.

(** *** Vocabulary of the properties *)

(** The wrapping chain of an error: the value itself, then what
    [errors.Unwrap] gives, one layer at a time, down to the last non-nil
    value. *)
Fixpoint chain (e : error) : list error :=
  match e with
  | nil => []
  | wrapError _ inner => e :: chain inner
  | CE (mkCommonEdgexError _ _ _ inner) => e :: chain inner
  | errorString _ => [e]
  | ErrContractInvalid _ => [e]
  end.

(** The dynamic type of the value is [CommonEdgexError]. *)
Definition structured (e : error) : bool := CommonEdgexError.Is zero e.

(** The text each layer contributes to the message of a
    [CommonEdgexError], outermost first: [op], a space and [Message] for a
    layer that has a nested error, [Message] alone for one that has none, and
    the whole message of a nested error of another type. *)
Fixpoint layers (ce : CommonEdgexError) : list string :=
  match ce with
  | mkCommonEdgexError op _ Message err =>
      match err with
      | nil => [Message]
      | CE inner => (op +:+ " " +:+ Message) :: layers inner
      | errorString s => [op +:+ " " +:+ Message; s]
      | wrapError msg _ => [op +:+ " " +:+ Message; msg]
      | ErrContractInvalid errMsg => [op +:+ " " +:+ Message; errMsg]
      end
  end.

(** The names the specification gives to the seven categories. *)
Definition category_names : list string :=
  [ "Unknown"; "Database"; "Communication"; "NotFound"; "InvalidState";
    "ServerError"; "LimitExceeded" ].

End models.

(** ** The standard library's [strings.Split], for a one-byte separator *)

Module strings.

(** [cur] is the segment being read.  A string without the separator
    gives the one-element slice holding it. *)
Fixpoint split_from (sep : ascii) (cur s : string) : list string :=
  match s with
  | EmptyString => [cur]
  | String c rest =>
      if Ascii.eqb c sep then cur :: split_from sep EmptyString rest
      else split_from sep (cur +:+ String c EmptyString) rest
  end.

Definition Split (s : string) (sep : ascii) : list string :=
  split_from sep EmptyString s.

(** [strings.Contains], for a one-byte substring. *)
Fixpoint Contains (s : string) (c : ascii) : bool :=
  match s with
  | EmptyString => false
  | String c' rest => Ascii.eqb c' c || Contains rest c
  end.

End strings.

(** ** The standard library's [json.Unmarshal], at type [CommonEdgexError]

    A model of [encoding/json] as far as decoding into this struct goes: the
    JSON grammar of RFC 8259, then the assignment of the members named by
    the struct tags [kind] and [message].  The fields [op] and [err] are not
    exported and the decoder never touches them.  Two things are left out
    and noted where they matter: the text of the decoder's error messages,
    and Unicode case folding beyond ASCII when member names are matched. *)

Module json.
Import models.

#[warning="-register-all"]
Inductive value : Type :=
| Null
| Bool (b : bool)
| Number
| Str (s : string)
| Array (elements : list value)
| Object (members : list (string * value)).

Definition is_space (c : ascii) : bool :=
  let n := nat_of_ascii c in
  (n =? 32)%nat || (n =? 9)%nat || (n =? 10)%nat || (n =? 13)%nat.

Definition is_digit (c : ascii) : bool :=
  let n := nat_of_ascii c in (48 <=? n)%nat && (n <=? 57)%nat.

Fixpoint skip_space (s : string) : string :=
  match s with
  | String c rest => if is_space c then skip_space rest else s
  | EmptyString => s
  end.

(** Value of a hexadecimal digit. *)
Definition hex (c : ascii) : option N :=
  let n := N_of_ascii c in
  if (48 <=? n)%N && (n <=? 57)%N then Some (n - 48)%N
  else if (97 <=? n)%N && (n <=? 102)%N then Some (n - 87)%N
  else if (65 <=? n)%N && (n <=? 70)%N then Some (n - 55)%N
  else None.

Definition hex4 (a b c d : ascii) : option N :=
  x3 ← hex a; x2 ← hex b; x1 ← hex c; x0 ← hex d;
  Some (((x3 * 16 + x2) * 16 + x1) * 16 + x0)%N.

Definition chr (n : N) : string := String (ascii_of_N n) EmptyString.

(** [utf8.EncodeRune] *)
Definition utf8 (r : N) : string :=
  if (r <? 128)%N then chr r
  else if (r <? 2048)%N then chr (192 + r / 64) +:+ chr (128 + r mod 64)
  else if (r <? 65536)%N then
    chr (224 + r / 4096) +:+ chr (128 + (r / 64) mod 64) +:+ chr (128 + r mod 64)
  else
    chr (240 + r / 262144) +:+ chr (128 + (r / 4096) mod 64) +:+
    chr (128 + (r / 64) mod 64) +:+ chr (128 + r mod 64).

Definition replacement : N := 65533.

Definition is_surrogate (r : N) : bool := (55296 <=? r)%N && (r <? 57344)%N.

(** [utf16.DecodeRune] *)
Definition decode_pair (r1 r2 : N) : N :=
  if (55296 <=? r1)%N && (r1 <? 56320)%N && (56320 <=? r2)%N && (r2 <? 57344)%N
  then ((r1 - 55296) * 1024 + (r2 - 56320) + 65536)%N
  else replacement.

Definition quote : ascii := ascii_of_nat 34.

(** The character a two-character escape stands for. *)
Definition escape (e : ascii) : option N :=
  if Ascii.eqb e quote then Some 34%N
  else match e with
       | "\"%char => Some 92%N
       | "/"%char => Some 47%N
       | "b"%char => Some 8%N
       | "f"%char => Some 12%N
       | "n"%char => Some 10%N
       | "r"%char => Some 13%N
       | "t"%char => Some 9%N
       | _ => None
       end.

(** The characters of a string literal after its opening quote: the decoded
    text and what follows the closing quote.  A surrogate escape that is not
    the first half of a pair decodes to U+FFFD. *)
Fixpoint string_body (acc s : string) : option (string * string) :=
  match s with
  | EmptyString => None
  | String c rest =>
      if Ascii.eqb c quote then Some (acc, rest)
      else if Ascii.eqb c "\" then
        match rest with
        | String "u"%char (String a (String b (String c (String d rest1)))) =>
            match hex4 a b c d with
            | None => None
            | Some r =>
                if is_surrogate r then
                  match rest1 with
                  | String "\"%char (String "u"%char
                      (String a' (String b' (String c' (String d' rest2))))) =>
                      match hex4 a' b' c' d' with
                      | Some r' =>
                          if (decode_pair r r' =? replacement)%N
                          then string_body (acc +:+ utf8 replacement) rest1
                          else string_body (acc +:+ utf8 (decode_pair r r')) rest2
                      | None => string_body (acc +:+ utf8 replacement) rest1
                      end
                  | _ => string_body (acc +:+ utf8 replacement) rest1
                  end
                else string_body (acc +:+ utf8 r) rest1
            end
        | String e rest1 =>
            match escape e with
            | Some n => string_body (acc +:+ chr n) rest1
            | None => None
            end
        | EmptyString => None
        end
      else if (nat_of_ascii c <? 32)%nat then None
      else string_body (acc +:+ String c EmptyString) rest
  end.

Fixpoint skip_digits (s : string) : string :=
  match s with
  | String c rest => if is_digit c then skip_digits rest else s
  | EmptyString => s
  end.

(** One digit at least. *)
Definition digits (s : string) : option string :=
  match s with
  | String c rest => if is_digit c then Some (skip_digits rest) else None
  | EmptyString => None
  end.

(** What follows a number literal, when [s] starts with one. *)
Definition number (s : string) : option string :=
  let unsigned := match s with String "-"%char rest => rest | _ => s end in
  after_int ←
    match unsigned with
    | String "0"%char rest => Some rest
    | _ => digits unsigned
    end;
  after_frac ←
    match after_int with
    | String "."%char rest => digits rest
    | _ => Some after_int
    end;
  match after_frac with
  | String c rest =>
      if Ascii.eqb c "e" || Ascii.eqb c "E" then
        match rest with
        | String sign rest' =>
            if Ascii.eqb sign "+" || Ascii.eqb sign "-" then digits rest'
            else digits rest
        | EmptyString => None
        end
      else Some after_frac
  | EmptyString => Some after_frac
  end.

(** [prefix p s] is what follows [p] in [s], when [s] starts with [p]. *)
Fixpoint prefix (p s : string) : option string :=
  match p, s with
  | EmptyString, _ => Some s
  | String a p', String b s' => if Ascii.eqb a b then prefix p' s' else None
  | String _ _, EmptyString => None
  end.

(** A JSON value at the head of [s], after optional white space, and what
    follows it.  [fuel] bounds the number of values, elements and members
    entered one inside the other; [parse] gives two units for each character
    of the document. *)
Fixpoint parse_value (fuel : nat) (s : string) : option (value * string) :=
  match fuel with
  | O => None
  | S fuel =>
      match skip_space s with
      | EmptyString => None
      | String c rest as s' =>
          if Ascii.eqb c quote then
            '(text, rest') ← string_body EmptyString rest; Some (Str text, rest')
          else if Ascii.eqb c "{" then
            match skip_space rest with
            | String "}"%char rest' => Some (Object [], rest')
            | _ => '(ms, rest') ← parse_members fuel rest; Some (Object ms, rest')
            end
          else if Ascii.eqb c "[" then
            match skip_space rest with
            | String "]"%char rest' => Some (Array [], rest')
            | _ => '(vs, rest') ← parse_elements fuel rest; Some (Array vs, rest')
            end
          else if Ascii.eqb c "t" then rest' ← prefix "true" s'; Some (Bool true, rest')
          else if Ascii.eqb c "f" then rest' ← prefix "false" s'; Some (Bool false, rest')
          else if Ascii.eqb c "n" then rest' ← prefix "null" s'; Some (Null, rest')
          else rest' ← number s'; Some (Number, rest')
      end
  end
with parse_elements (fuel : nat) (s : string) : option (list value * string) :=
  match fuel with
  | O => None
  | S fuel =>
      '(v, rest) ← parse_value fuel s;
      match skip_space rest with
      | String ","%char rest' =>
          '(vs, rest'') ← parse_elements fuel rest'; Some (v :: vs, rest'')
      | String "]"%char rest' => Some ([v], rest')
      | _ => None
      end
  end
with parse_members (fuel : nat) (s : string) : option (list (string * value) * string) :=
  match fuel with
  | O => None
  | S fuel =>
      match skip_space s with
      | String c rest =>
          if Ascii.eqb c quote then
            '(key, rest) ← string_body EmptyString rest;
            match skip_space rest with
            | String ":"%char rest =>
                '(v, rest) ← parse_value fuel rest;
                match skip_space rest with
                | String ","%char rest' =>
                    '(ms, rest'') ← parse_members fuel rest'; Some ((key, v) :: ms, rest'')
                | String "}"%char rest' => Some ([(key, v)], rest')
                | _ => None
                end
            | _ => None
            end
          else None
      | EmptyString => None
      end
  end.

(** A whole document: one value, then white space only. *)
Definition parse (s : string) : option value :=
  '(v, rest) ← parse_value (2 * String.length s + 2) s;
  match skip_space rest with
  | EmptyString => Some v
  | String _ _ => None
  end.

(** ASCII lower case. *)
Definition lower (c : ascii) : ascii :=
  let n := nat_of_ascii c in
  if (65 <=? n)%nat && (n <=? 90)%nat then ascii_of_nat (n + 32) else c.

Fixpoint to_lower (s : string) : string :=
  match s with
  | EmptyString => EmptyString
  | String c rest => String (lower c) (to_lower rest)
  end.

(** The exported fields, by the name of their tag. *)
Inductive field : Type := field_Kind | field_Message.

(** The field a member name selects: an exact match first, then a match
    that ignores case. *)
Definition field_of (key : string) : option field :=
  if String.eqb key "kind" then Some field_Kind
  else if String.eqb key "message" then Some field_Message
  else if String.eqb (to_lower key) "kind" then Some field_Kind
  else if String.eqb (to_lower key) "message" then Some field_Message
  else None.

Definition set_field (f : field) (text : string) (e : CommonEdgexError)
    : CommonEdgexError :=
  match e, f with
  | mkCommonEdgexError op _ Message err, field_Kind =>
      mkCommonEdgexError op text Message err
  | mkCommonEdgexError op Kind _ err, field_Message =>
      mkCommonEdgexError op Kind text err
  end.

(** An [*json.SyntaxError] and an [*json.UnmarshalTypeError]: neither has
    an [Unwrap] method.  The texts stand for the decoder's messages. *)
Definition SyntaxError : error := errorString "json: syntax error".
Definition UnmarshalTypeError : error := errorString "json: cannot unmarshal".

(** The first error is the one reported: [d.saveError]. *)
Definition saveError (saved err : error) : error :=
  if is_nil saved then err else saved.

(** Members are assigned in the order of the document, so a repeated name
    keeps its last value.  A string sets the field, [null] leaves it, any
    other value is a type error and decoding goes on. *)
Fixpoint assign (members : list (string * value)) (e : CommonEdgexError)
    (saved : error) : CommonEdgexError * error :=
  match members with
  | [] => (e, saved)
  | (key, v) :: members =>
      match field_of key, v with
      | None, _ => assign members e saved
      | Some f, Str text => assign members (set_field f text e) saved
      | Some _, Null => assign members e saved
      | Some _, _ => assign members e (saveError saved UnmarshalTypeError)
      end
  end.

(** [json.Unmarshal(data, &e)].  The document is checked as a whole before
    anything is assigned. *)
Definition Unmarshal (data : list Byte.byte) (e : CommonEdgexError)
    : CommonEdgexError * error :=
  match parse (string_of_list_byte data) with
  | None => (e, SyntaxError)
  | Some (Object members) => assign members e nil
  | Some Null => (e, nil)
  | Some _ => (e, UnmarshalTypeError)
  end.

End json.

(** ** Package http *)

Module http.
Import models.

(** Status codes of [net/http]. *)
Definition StatusInternalServerError    : Z := 500.
Definition StatusNotFound               : Z := 404.
Definition StatusConflict               : Z := 409.
Definition StatusRequestEntityTooLarge  : Z := 413.

(** [var ResponseMap = map[models.Code]int{...}] *)
Definition ResponseMap : gmap string Z :=
  list_to_map
    [ (KindUnknown,                 StatusInternalServerError);
      (KindDatabaseError,           StatusInternalServerError);
      (KindServerError,             StatusInternalServerError);
      (KindCommunicationError,      StatusInternalServerError);
      (KindEntityDoesNotExistError, StatusNotFound);
      (KindEntityStateError,        StatusConflict);
      (KindLimitExceeded,           StatusRequestEntityTooLarge) ].

(** [ResponseMap[k]]: indexing a Go map with an absent key gives the zero
    value of the element type. *)
Definition ResponseMap_at (k : Code) : Z := default 0%Z (ResponseMap !! k).

(** A method call received by an [http.ResponseWriter]. *)
Inductive call : Type :=
| WriteHeader (statusCode : Z)
| Write (p : list Byte.byte).

(** The writer: the calls it has received, oldest first.  The log records
    what [ToHttpResponse] asks of the writer.  The writers of [net/http]
    refuse a first status outside 100..999 by panicking, so what follows a
    status in the log is what such a writer receives only when that status
    is one of the table's. *)
Definition ResponseWriter : Type := list call.

Definition send (w : ResponseWriter) (c : call) : ResponseWriter := w ++ [c].

(** [[]byte(s)] *)
Definition bytes (s : string) : list Byte.byte := list_byte_of_string s.

(** The type of the [decoder] argument, [func(interface{}) ([]byte, error)].
    Both results exist whatever the error is.  The values it is applied to
    are an [error] and a [CommonEdgexError]; the latter, boxed in
    [interface{}], is the value [CE ce]. *)
Definition Decoder : Type := error -> list Byte.byte * error.

(** [ToHttpResponse].  The body of [if !ok { ... }] either returns (left)
    or runs off its end into the statements that follow it (right). *)
Definition ToHttpResponse (e : error) (w : ResponseWriter) (decoder : Decoder)
    : ResponseWriter :=
  let kind := Kind e in
  let '(ce, ok) :=
    match errors_As e with
    | Some found => (found, true)
    | None => (zero, false)
    end in
  let not_ok : ResponseWriter + ResponseWriter :=
    if negb ok then
      let w := send w (WriteHeader StatusInternalServerError) in
      let '(message, err) := decoder e in
      if negb (is_nil err) then inl (send w (Write message))
      else inr (send w (Write (bytes "Unknown error")))
    else inr w in
  match not_ok with
  | inl w => w
  | inr w =>
      let statusCode := ResponseMap_at (Kind (CE ce)) in
      let '(message, err) := decoder (CE ce) in
      let w := send w (WriteHeader statusCode) in
      if negb (is_nil err) then send w (Write (bytes "Unable to process error"))
      else send w (Write message)
  end.

(** Number of status lines and of bodies a writer has received. *)
Definition is_WriteHeader (c : call) : bool :=
  match c with WriteHeader _ => true | Write _ => false end.
Definition is_Write (c : call) : bool :=
  match c with Write _ => true | WriteHeader _ => false end.

Definition statuses (w : ResponseWriter) : list Z :=
  omap (fun c => match c with WriteHeader n => Some n | Write _ => None end) w.
Definition bodies (w : ResponseWriter) : list (list Byte.byte) :=
  omap (fun c => match c with Write p => Some p | WriteHeader _ => None end) w.

Section FromServiceClientError.

(** [types.ErrServiceClient] is declared in another package; the function
    only calls its [Error] method. *)
Variable ErrServiceClient : Type.
Variable ErrServiceClient_Error : ErrServiceClient -> string.

(** [json.Unmarshal(data, &e)]: the value of [e] after the call and the
    error returned. *)
Variable json_Unmarshal :
  list Byte.byte -> CommonEdgexError -> CommonEdgexError * error.

(** The frame of this function at its call of [NewCommonEdgexError]. *)
Variable site : Frame.

(** [FromServiceClientError]; [esc] is a valid pointer. *)
Definition FromServiceClientError (esc : ErrServiceClient) : result error :=
  let body := strings.Split (ErrServiceClient_Error esc) "-"%char in
  match body !! 1%nat with
  | None => Panic (IndexOutOfRange 1 (length body))
  | Some segment =>
      let '(e, err) := json_Unmarshal (bytes segment) zero in
      if negb (is_nil err) then
        Ok (CE (NewCommonEdgexError site KindServerError "Client error" err))
      else Ok (CE e)
  end.

End FromServiceClientError.

End http.

(** ** Sample values *)

Module samples.
Import models http.

(** A [NotFound] error that wraps a [Database] error, under two layers of
    [fmt.Errorf] wrapping: the outer structured error wins. *)
Definition nested_sample : error :=
  wrapError "handler: service: lookup"
    (wrapError "service: lookup"
       (CE (mkCommonEdgexError "op1" KindEntityDoesNotExistError "lookup"
              (CE (mkCommonEdgexError "op2" KindDatabaseError "query"
                     (errorString "connection reset")))))).

(** An encoder that always fails, returning no bytes, one that always
    succeeds with the same bytes, and one that fails but returns bytes. *)
Definition failing_decoder : Decoder :=
  fun _ => ([], errorString "encode failed").
Definition succeeding_decoder : Decoder :=
  fun _ => (bytes "{}", nil).
Definition partial_decoder : Decoder :=
  fun _ => (bytes "{", errorString "encode failed").

Definition quoted (s : string) : string := json.chr 34 +:+ s +:+ json.chr 34.

(** The document [{"kind":"NotFound","message":"missing"}]. *)
Definition document : string :=
  "{" +:+ quoted "kind" +:+ ":" +:+ quoted "NotFound" +:+ "," +:+
  quoted "message" +:+ ":" +:+ quoted "missing" +:+ "}".

(** The same with the message [not-found]. *)
Definition hyphen_document : string :=
  "{" +:+ quoted "kind" +:+ ":" +:+ quoted "NotFound" +:+ "," +:+
  quoted "message" +:+ ":" +:+ quoted "not-found" +:+ "}".

Definition site : Frame :=
  mkFrame "clients/http/errors.go" "http.FromServiceClientError" 226.

End samples.

(** ** The standard library's [errors.Is] *)

Module errors.
Import models.

Section Is.

(** [==] on two interface values.  Values made by [errors.New] and
    [fmt.Errorf] are pointers and compare by identity, which the values of
    [error] do not record, so the comparison is a parameter. *)
Variable equal : error -> error -> bool.

(** The loop of [errors.Is] for a non-nil target: [if err == target
    { return true }; if err has an Is method and err.Is(target) { return
    true }; if err = Unwrap(err); err == nil { return false }].  Every type
    of the model is comparable; [CommonEdgexError] is the one that has an
    [Is] method. *)
Fixpoint Is_loop (err target : error) : bool :=
  match err with
  | nil => false
  | errorString _ => equal err target
  | ErrContractInvalid _ => equal err target
  | wrapError _ inner => equal err target || Is_loop inner target
  | CE (mkCommonEdgexError _ _ _ inner as ce) =>
      equal err target || CommonEdgexError.Is ce target || Is_loop inner target
  end.

(** [errors.Is(err, target)]; for a nil target it is [err == nil]. *)
Definition Is (err target : error) : bool :=
  if is_nil target then is_nil err else Is_loop err target.

End Is.

End errors.

(** ** Package types *)

Module types.

(** Modelled from the spec: [types.ErrServiceClient], the error of a remote
    service client, which package [clients/types] declares and whose source
    is not at hand.  The spec gives the form of its error string,
    [<prefix>-<json-payload>]: a prefix, the delimiter, and the payload.
    The form [<status> - <body>] of [fmt.Sprintf("%d - %s", ...)] is the
    instance whose prefix ends and whose payload starts with a space. *)
Record ErrServiceClient : Type := mkErrServiceClient
  { prefix : string;
    payload : string }.

Definition Error (esc : ErrServiceClient) : string :=
  prefix esc +:+ "-" +:+ payload esc.

End types.

(** ** Further vocabulary *)

Module vocabulary.
Import models http.

(** [wrap msgs e]: [e] under one [fmt.Errorf] layer for each message, the
    first message outermost. *)
Definition wrap (msgs : list string) (e : error) : error :=
  foldr wrapError e msgs.

(** A printable ASCII character other than the double quote, the backslash
    and the hyphen: JSON writes it as itself, and it does not end a segment
    of [strings.Split]. *)
Definition plain_char (c : ascii) : bool :=
  let n := nat_of_ascii c in
  (32 <=? n)%nat && (n <? 127)%nat &&
  negb (n =? 34)%nat && negb (n =? 92)%nat && negb (n =? 45)%nat.

Fixpoint plain (s : string) : bool :=
  match s with
  | EmptyString => true
  | String c rest => plain_char c && plain rest
  end.

(** The document [{"kind":"k","message":"m"}]. *)
Definition document_of (k m : string) : string :=
  "{" +:+ json.chr 34 +:+ "kind" +:+ json.chr 34 +:+ ":" +:+
  json.chr 34 +:+ k +:+ json.chr 34 +:+ "," +:+
  json.chr 34 +:+ "message" +:+ json.chr 34 +:+ ":" +:+
  json.chr 34 +:+ m +:+ json.chr 34 +:+ "}".

End vocabulary.

(** * Properties *)

Import models http samples.

(** ** The error chain *)

(** [errors_As] is the loop of [errors.As]: stop at nil, stop at the first
    value of the target type, otherwise go on with [Unwrap]. *)
Lemma errors_As_loop (e : error) :
  errors_As e =
    if is_nil e then None
    else match e with
         | CE ce => Some ce
         | _ => errors_As (Unwrap e)
         end.
Proof. destruct e; reflexivity. Qed.

(** [chain] follows [errors.Unwrap]. *)
Lemma chain_Unwrap (e : error) :
  chain e = if is_nil e then [] else e :: chain (Unwrap e).
Proof. destruct e as [| | | |[]]; reflexivity. Qed.

Lemma structured_CE (e : error) :
  structured e = true <-> exists ce, e = CE ce.
Proof.
  split.
  - destruct e; try discriminate. eauto.
  - intros [ce ->]. reflexivity.
Qed.

(** [errors_As] finds the first structured value of the chain. *)
Lemma errors_As_first (e : error) (pre post : list error) (ce : CommonEdgexError) :
  chain e = pre ++ CE ce :: post ->
  Forall (fun x => structured x = false) pre ->
  errors_As e = Some ce.
Proof.
  revert pre.
  induction e as [| s | msg inner IH | errMsg | ce0]; intros pre Hchain Hpre.
  - destruct pre; discriminate.
  - destruct pre as [|x [|y pre]]; simplify_eq/=.
  - destruct pre as [|x pre]; simplify_eq/=.
    apply (IH pre); [assumption|]. by inversion Hpre.
  - destruct pre as [|x [|y pre]]; simplify_eq/=.
  - destruct ce0 as [op k m inner].
    destruct pre as [|x pre]; simplify_eq/=; [reflexivity|].
    inversion Hpre; discriminate.
Qed.

(** [errors_As] fails exactly on the chains without a structured value. *)
Lemma errors_As_None (e : error) :
  errors_As e = None <-> Forall (fun x => structured x = false) (chain e).
Proof.
  induction e as [| s | msg inner IH | errMsg | ce0]; simpl.
  - split; [constructor | reflexivity].
  - split; [repeat constructor | reflexivity].
  - rewrite IH. split.
    + intros H. by constructor.
    + intros H. by inversion H.
  - split; [repeat constructor | reflexivity].
  - destruct ce0. split; [discriminate|].
    intros H. inversion H. discriminate.
Qed.

(** What [errors_As] finds is in the chain, with nothing structured
    before it. *)
Lemma errors_As_Some (e : error) (ce : CommonEdgexError) :
  errors_As e = Some ce ->
  exists pre post,
    chain e = pre ++ CE ce :: post /\
    Forall (fun x => structured x = false) pre.
Proof.
  induction e as [| s | msg inner IH | errMsg | ce0]; simpl; try discriminate.
  - intros H. destruct (IH H) as (pre & post & Hc & Hpre).
    exists (wrapError msg inner :: pre), post. rewrite Hc. split; [reflexivity|].
    by constructor.
  - intros [= ->]. destruct ce as [op k m inner].
    exists [], (chain inner). split; [reflexivity | constructor].
Qed.

(** C3. [Kind] returns the [Kind] field of the first [CommonEdgexError] of
    the wrapping chain, whatever precedes it being layers of other types and
    whatever follows it being ignored, and [KindUnknown] when the chain has
    no [CommonEdgexError]. *)
Theorem Kind_shallowest_match (e : error) :
  (forall pre ce post,
      chain e = pre ++ CE ce :: post ->
      Forall (fun x => structured x = false) pre ->
      Kind e = CommonEdgexError.Kind ce) /\
  (Forall (fun x => structured x = false) (chain e) -> Kind e = KindUnknown).
Proof.
  split.
  - intros pre ce post Hchain Hpre. unfold Kind.
    by rewrite (errors_As_first e pre post ce).
  - intros Hnone. unfold Kind.
    apply errors_As_None in Hnone. by rewrite Hnone.
Qed.

Lemma Kind_shallowest_match_witness :
  Kind nested_sample = KindEntityDoesNotExistError /\
  Kind (wrapError "outer" (errorString "inner")) = KindUnknown.
Proof.
  split.
  - apply (proj1 (Kind_shallowest_match nested_sample)
             [nested_sample; Unwrap nested_sample]
             (mkCommonEdgexError "op1" KindEntityDoesNotExistError "lookup"
                (CE (mkCommonEdgexError "op2" KindDatabaseError "query"
                       (errorString "connection reset"))))
             [CE (mkCommonEdgexError "op2" KindDatabaseError "query"
                    (errorString "connection reset"));
              errorString "connection reset"]).
    + reflexivity.
    + repeat constructor.
  - apply (proj2 (Kind_shallowest_match (wrapError "outer" (errorString "inner")))).
    repeat constructor.
Defined.

(** C10. Construction stores its arguments as they are: unwrapping gives
    back the wrapped error, the fields give back the kind and the message,
    and classification gives back the kind, for every string used as a kind. *)
Theorem NewCommonEdgexError_recovers (caller : Frame) (k : Code) (m : string) (c : error) :
  let e := NewCommonEdgexError caller k m c in
  CommonEdgexError.Unwrap e = c /\
  CommonEdgexError.Kind e = k /\
  CommonEdgexError.Message e = m /\
  Kind (CE e) = k.
Proof. repeat split. Qed.

(** ** The message of a structured error *)

Lemma append_assoc (a b c : string) : (a +:+ b) +:+ c = a +:+ b +:+ c.
Proof.
  induction a as [|x a IH]; [reflexivity|].
  change (String x ((a +:+ b) +:+ c) = String x (a +:+ b +:+ c)).
  by rewrite IH.
Qed.

Lemma layers_not_empty (ce : CommonEdgexError) : layers ce <> [].
Proof. destruct ce as [op k m []]; discriminate. Qed.

Lemma concat_cons (sep x : string) (xs : list string) :
  xs <> [] -> String.concat sep (x :: xs) = x +:+ sep +:+ String.concat sep xs.
Proof. destruct xs; [congruence | reflexivity]. Qed.

(** [Error] panics on the nil interface only, and the method of
    [CommonEdgexError] never calls it there: both always return. *)
Lemma CommonEdgexError_Error_returns (ce : CommonEdgexError) :
  exists s, CommonEdgexError_Error ce = Ok s.
Proof.
  induction ce as [| | | | |op k m inner IH] using CommonEdgexError_mut
    with (P := fun e => is_nil e = false -> exists s, Error e = Ok s);
    simpl; try discriminate; eauto.
  destruct (is_nil inner); [eauto|].
  destruct (IH eq_refl) as [s ->]. simpl. eauto.
Qed.

Lemma Error_returns (e : error) :
  is_nil e = false -> exists s, Error e = Ok s.
Proof.
  destruct e; simpl; try discriminate; eauto using CommonEdgexError_Error_returns.
Qed.

(** The message is the layers joined by a colon and a space. *)
Lemma Error_layers (ce : CommonEdgexError) :
  CommonEdgexError_Error ce = Ok (String.concat ": " (layers ce)).
Proof.
  induction ce as [| | | | |op k m inner IH] using CommonEdgexError_mut
    with (P := fun e => forall c, e = CE c ->
                 CommonEdgexError_Error c = Ok (String.concat ": " (layers c)));
    try discriminate.
  - intros c [= ->]. assumption.
  - destruct inner as [| s | msg e' | errMsg | c];
      try (simpl; by rewrite ?append_assoc).
    change (CommonEdgexError_Error (mkCommonEdgexError op k m (CE c)))
      with (nested ← CommonEdgexError_Error c;
            Ok (op +:+ " " +:+ m +:+ ": " +:+ nested)).
    rewrite (IH c eq_refl). simpl layers.
    rewrite concat_cons by apply layers_not_empty.
    simpl. by rewrite !append_assoc.
Qed.

(** C4. [Error] returns [Message] as it is when there is no nested error;
    otherwise it returns [op], a space, [Message], a colon and a space, and
    the message of the nested error, which is computed the same way: the
    result is the layers of the chain, outermost first, joined by a colon
    and a space. *)
Theorem Error_message (ce : CommonEdgexError) :
  (CommonEdgexError.err ce = nil ->
     CommonEdgexError_Error ce = Ok (CommonEdgexError.Message ce)) /\
  (CommonEdgexError.err ce <> nil ->
     exists nested,
       Error (CommonEdgexError.err ce) = Ok nested /\
       CommonEdgexError_Error ce =
         Ok (CommonEdgexError.op ce +:+ " " +:+ CommonEdgexError.Message ce
               +:+ ": " +:+ nested)) /\
  CommonEdgexError_Error ce = Ok (String.concat ": " (layers ce)).
Proof.
  split; [|split].
  - destruct ce as [op k m inner]. simpl. by intros ->.
  - destruct ce as [op k m inner]. simpl. intros Hne.
    assert (Hnil : is_nil inner = false) by (by destruct inner).
    destruct (Error_returns inner Hnil) as [s Hs].
    exists s. by rewrite Hnil, Hs.
  - apply Error_layers.
Qed.

Lemma Error_message_witness :
  CommonEdgexError_Error (mkCommonEdgexError "op" KindUnknown "disk full" nil)
    = Ok "disk full" /\
  CommonEdgexError_Error
    (mkCommonEdgexError "op1" KindServerError "save failed"
       (CE (mkCommonEdgexError "op2" KindDatabaseError "insert failed"
              (errorString "disk full"))))
    = Ok "op1 save failed: op2 insert failed: disk full".
Proof.
  split.
  - apply (proj1 (Error_message
                    (mkCommonEdgexError "op" KindUnknown "disk full" nil))).
    reflexivity.
  - destruct (proj1 (proj2 (Error_message
                (mkCommonEdgexError "op1" KindServerError "save failed"
                   (CE (mkCommonEdgexError "op2" KindDatabaseError "insert failed"
                          (errorString "disk full")))))))
      as (nested & Hnested & ->).
    + discriminate.
    + simpl in Hnested. injection Hnested as <-. reflexivity.
Defined.

(** ** The status table *)

(** C6. [ResponseMap] has an entry for each of the seven constants and for
    nothing else, seven entries in all, with the statuses 500, 500, 500,
    500, 404, 409 and 413. *)
Theorem ResponseMap_exhaustive :
  (forall k : Code, is_Some (ResponseMap !! k) <-> k ∈ Kinds) /\
  NoDup Kinds /\
  size ResponseMap = 7%nat /\
  ResponseMap !! KindUnknown = Some 500%Z /\
  ResponseMap !! KindDatabaseError = Some 500%Z /\
  ResponseMap !! KindServerError = Some 500%Z /\
  ResponseMap !! KindCommunicationError = Some 500%Z /\
  ResponseMap !! KindEntityDoesNotExistError = Some 404%Z /\
  ResponseMap !! KindEntityStateError = Some 409%Z /\
  ResponseMap !! KindLimitExceeded = Some 413%Z.
Proof.
  assert (Hdom : dom ResponseMap = list_to_set Kinds) by (by vm_compute).
  split; [|split; [|by vm_compute]].
  - intros k. rewrite <- elem_of_dom, Hdom. apply elem_of_list_to_set.
  - apply (bool_decide_unpack _). by vm_compute.
Qed.

(** ** The kind constants *)

(** C9, as the specification states it, fails: the value of
    [KindServerError] is not the name of its category. *)
Lemma Kinds_differ_from_category_names :
  KindServerError <> "ServerError" /\
  ~ (NoDup Kinds /\ Kinds = category_names).
Proof. split; [discriminate | intros [_ H]; discriminate H]. Qed.

(** C9, amended. The seven constants are pairwise distinct strings; six of
    them are the names of their categories, and [KindServerError] is
    ["Unknown/Unexpected"]. *)
Theorem Kinds_distinct_identifiers :
  NoDup Kinds /\
  Kinds = [ "Unknown"; "Database"; "Communication"; "NotFound";
            "InvalidState"; "Unknown/Unexpected"; "LimitExceeded" ] /\
  KindServerError = "Unknown/Unexpected" /\
  (forall i : nat, i <> 5%nat -> Kinds !! i = category_names !! i).
Proof.
  split; [|split; [reflexivity | split; [reflexivity|]]].
  - apply (bool_decide_unpack _). by vm_compute.
  - intros i Hi. do 7 (destruct i as [|i]; [reflexivity || congruence|]).
    reflexivity.
Qed.

Lemma Kinds_distinct_identifiers_witness :
  Kinds !! 3%nat = category_names !! 3%nat.
Proof.
  apply (proj2 (proj2 (proj2 Kinds_distinct_identifiers)) 3%nat). lia.
Defined.

(** ** Writing the response *)

(** The branch taken when the chain has a structured error: one status, the
    table's entry for the kind found or 0 when it has none, and one body. *)
Lemma ToHttpResponse_found (e : error) (w : ResponseWriter) (decoder : Decoder)
    (ce : CommonEdgexError) :
  errors_As e = Some ce ->
  ToHttpResponse e w decoder =
    w ++ [ WriteHeader (ResponseMap_at (CommonEdgexError.Kind ce));
           Write (if is_nil (decoder (CE ce)).2 then (decoder (CE ce)).1
                  else bytes "Unable to process error") ].
Proof.
  intros Has. unfold ToHttpResponse, send. rewrite Has. simpl.
  destruct (decoder (CE ce)) as [message err]. simpl.
  destruct (is_nil err); simpl; by rewrite <- app_assoc.
Qed.

(** The branch taken when it has none.  A failed encoding writes the bytes
    the encoder returned and returns; a successful one writes the fixed
    text and goes on into the statements of the other branch, with the zero
    value of [ce]. *)
Lemma ToHttpResponse_not_found (e : error) (w : ResponseWriter) (decoder : Decoder) :
  errors_As e = None ->
  ToHttpResponse e w decoder =
    if is_nil (decoder e).2 then
      w ++ [ WriteHeader 500; Write (bytes "Unknown error");
             WriteHeader 0;
             Write (if is_nil (decoder (CE zero)).2 then (decoder (CE zero)).1
                    else bytes "Unable to process error") ]
    else w ++ [ WriteHeader 500; Write (decoder e).1 ].
Proof.
  intros Has. unfold ToHttpResponse, send. rewrite Has. simpl.
  destruct (decoder e) as [message err]. simpl.
  destruct (is_nil err); simpl.
  - destruct (decoder (CE zero)) as [message' err']. simpl.
    destruct (is_nil err'); simpl; by rewrite <- !app_assoc.
  - by rewrite <- app_assoc.
Qed.

(** C5. When the chain of the error has a [CommonEdgexError], the first of
    them decides the response: the status is the table's entry for its
    kind, 413 for [KindLimitExceeded], and the body is the encoder's output
    for it, or the text "Unable to process error" when the encoder fails. *)
Theorem ToHttpResponse_structured (e : error) (w : ResponseWriter)
    (decoder : Decoder) (pre post : list error) (ce : CommonEdgexError) :
  chain e = pre ++ CE ce :: post ->
  Forall (fun x => structured x = false) pre ->
  let body :=
    if is_nil (decoder (CE ce)).2 then (decoder (CE ce)).1
    else bytes "Unable to process error" in
  (forall status : Z,
      ResponseMap !! CommonEdgexError.Kind ce = Some status ->
      ToHttpResponse e w decoder = w ++ [WriteHeader status; Write body]) /\
  (CommonEdgexError.Kind ce = KindLimitExceeded ->
      ToHttpResponse e w decoder = w ++ [WriteHeader 413; Write body]).
Proof.
  intros Hchain Hpre body.
  pose proof (errors_As_first e pre post ce Hchain Hpre) as Has.
  split.
  - intros status Hstatus. rewrite (ToHttpResponse_found e w decoder ce Has).
    unfold ResponseMap_at. by rewrite Hstatus.
  - intros Hkind. rewrite (ToHttpResponse_found e w decoder ce Has).
    by rewrite Hkind.
Qed.

Lemma ToHttpResponse_structured_witness :
  ToHttpResponse
    (wrapError "upload: too large"
       (CE (mkCommonEdgexError "op" KindLimitExceeded "too large" nil)))
    [] succeeding_decoder
  = [WriteHeader 413; Write (bytes "{}")] /\
  ToHttpResponse
    (CE (mkCommonEdgexError "op" KindEntityDoesNotExistError "missing" nil))
    [] failing_decoder
  = [WriteHeader 404; Write (bytes "Unable to process error")].
Proof.
  split.
  - apply (proj2 (ToHttpResponse_structured
             (wrapError "upload: too large"
                (CE (mkCommonEdgexError "op" KindLimitExceeded "too large" nil)))
             [] succeeding_decoder
             [wrapError "upload: too large"
                (CE (mkCommonEdgexError "op" KindLimitExceeded "too large" nil))]
             []
             (mkCommonEdgexError "op" KindLimitExceeded "too large" nil)
             eq_refl ltac:(repeat constructor))).
    reflexivity.
  - apply (proj1 (ToHttpResponse_structured
             (CE (mkCommonEdgexError "op" KindEntityDoesNotExistError "missing" nil))
             [] failing_decoder [] []
             (mkCommonEdgexError "op" KindEntityDoesNotExistError "missing" nil)
             eq_refl ltac:(constructor)) 404%Z).
    by vm_compute.
Defined.

(** C1, on the code. For an error without a structured error in its chain
    and an encoder that fails, the body written after status 500 is the
    bytes the failing encoder returned, not the text "Unknown error"; that
    text is written when the encoder succeeds. *)
Theorem ToHttpResponse_opaque_bodies :
  errors_As (errorString "boom") = None /\
  ToHttpResponse (errorString "boom") [] failing_decoder
    = [WriteHeader 500; Write []] /\
  ToHttpResponse (errorString "boom") [] partial_decoder
    = [WriteHeader 500; Write (bytes "{")] /\
  bodies (ToHttpResponse (errorString "boom") [] failing_decoder)
    <> [bytes "Unknown error"] /\
  bodies (ToHttpResponse (errorString "boom") [] succeeding_decoder)
    = [bytes "Unknown error"; bytes "{}"].
Proof. repeat split. discriminate. Qed.

(** C2, on the code. For an error without a structured error in its chain
    and an encoder that succeeds, the writer receives two statuses, 500 and
    then 0, and two bodies. *)
Theorem ToHttpResponse_opaque_writes_twice :
  ToHttpResponse (errorString "boom") [] succeeding_decoder
    = [ WriteHeader 500; Write (bytes "Unknown error");
        WriteHeader 0; Write (bytes "{}") ] /\
  statuses (ToHttpResponse (errorString "boom") [] succeeding_decoder)
    = [500%Z; 0%Z] /\
  length (bodies (ToHttpResponse (errorString "boom") [] succeeding_decoder))
    = 2%nat.
Proof. repeat split. Qed.

(** On every other path one status and one body are written. *)
Lemma ToHttpResponse_writes_once (e : error) (decoder : Decoder) :
  errors_As e <> None \/ is_nil (decoder e).2 = false ->
  length (statuses (ToHttpResponse e [] decoder)) = 1%nat /\
  length (bodies (ToHttpResponse e [] decoder)) = 1%nat.
Proof.
  intros H. destruct (errors_As e) as [ce|] eqn:Has.
  - by rewrite (ToHttpResponse_found e [] decoder ce Has).
  - destruct H as [H|H]; [congruence|].
    rewrite (ToHttpResponse_not_found e [] decoder Has), H. by split.
Qed.

(** ** Decoding the error of a service client *)

Lemma append_empty (a : string) : a +:+ EmptyString = a.
Proof.
  induction a as [|x a IH]; [reflexivity|].
  change (String x (a +:+ EmptyString) = String x a). by rewrite IH.
Qed.

(** A string without the separator is not split. *)
Lemma split_from_absent (sep : ascii) (s cur : string) :
  strings.Contains s sep = false ->
  strings.split_from sep cur s = [cur +:+ s].
Proof.
  revert cur. induction s as [|c s IH]; intros cur Habsent; simpl in *.
  - by rewrite append_empty.
  - apply orb_false_iff in Habsent as [-> Hrest].
    rewrite (IH _ Hrest), append_assoc. reflexivity.
Qed.

Lemma Split_absent (s : string) (sep : ascii) :
  strings.Contains s sep = false -> strings.Split s sep = [s].
Proof. apply split_from_absent. Qed.

Section FromServiceClientError_properties.

Context {ErrServiceClient : Type}.
Variable ErrServiceClient_Error : ErrServiceClient -> string.
Variable json_Unmarshal :
  list Byte.byte -> CommonEdgexError -> CommonEdgexError * error.
Variable frame : Frame.

Let decode :=
  FromServiceClientError ErrServiceClient ErrServiceClient_Error
    json_Unmarshal frame.

(** Without the separator in the error string there is no second segment,
    and indexing it panics, whatever the JSON decoder does. *)
Lemma FromServiceClientError_no_delimiter (esc : ErrServiceClient) :
  strings.Contains (ErrServiceClient_Error esc) "-" = false ->
  decode esc = Panic (IndexOutOfRange 1 1).
Proof.
  intros Habsent. unfold decode, FromServiceClientError.
  by rewrite (Split_absent _ _ Habsent).
Qed.

(** With a second segment, the result is what the decoder makes of it from
    the zero value, or the "Client error" that wraps the decoder's error. *)
Lemma FromServiceClientError_second_segment (esc : ErrServiceClient)
    (first segment : string) (others : list string) :
  strings.Split (ErrServiceClient_Error esc) "-" = first :: segment :: others ->
  decode esc =
    Ok (CE (if is_nil (json_Unmarshal (bytes segment) zero).2
            then (json_Unmarshal (bytes segment) zero).1
            else mkCommonEdgexError (addCallerInformation frame)
                   KindServerError "Client error"
                   (json_Unmarshal (bytes segment) zero).2)).
Proof.
  intros Hsplit. unfold decode, FromServiceClientError. rewrite Hsplit. simpl.
  destruct (json_Unmarshal (bytes segment) zero) as [e err]. simpl.
  by destruct (is_nil err).
Qed.

End FromServiceClientError_properties.


(** C8. [FromServiceClientError] splits the error string at each [-] and
    decodes the second segment as JSON into a zero [CommonEdgexError], which
    it returns; when the decoder reports an error it returns instead a new
    [CommonEdgexError] of kind [KindServerError] with the message
    "Client error" that wraps the decoder's error.  The string
    [svc-{"kind":"NotFound","message":"missing"}] gives kind [NotFound] and
    message [missing]. *)
Theorem FromServiceClientError_decodes :
  (forall (ErrServiceClient : Type) (Error : ErrServiceClient -> string)
          (json_Unmarshal : list Byte.byte -> CommonEdgexError -> CommonEdgexError * error)
          (frame : Frame) (esc : ErrServiceClient)
          (first segment : string) (others : list string),
      strings.Split (Error esc) "-" = first :: segment :: others ->
      let '(e, err) := json_Unmarshal (bytes segment) zero in
      FromServiceClientError ErrServiceClient Error json_Unmarshal frame esc =
        Ok (CE (if is_nil err then e
                else mkCommonEdgexError (addCallerInformation frame)
                       KindServerError "Client error" err)) /\
      (is_nil err = false ->
         exists ce,
           FromServiceClientError ErrServiceClient Error json_Unmarshal frame esc
             = Ok (CE ce) /\
           CommonEdgexError.Kind ce = KindServerError /\
           CommonEdgexError.Message ce = "Client error" /\
           CommonEdgexError.Unwrap ce = err)) /\
  FromServiceClientError string id json.Unmarshal site ("svc-" +:+ document)
    = Ok (CE (mkCommonEdgexError "" "NotFound" "missing" nil)).
Proof.
  split; [|by vm_compute].
  intros T Err unm frame esc first segment others Hsplit.
  pose proof (FromServiceClientError_second_segment Err unm frame esc
                first segment others Hsplit) as Hdec.
  destruct (unm (bytes segment) zero) as [e err]. simpl in Hdec.
  split; [exact Hdec|].
  intros Herr. rewrite Herr in Hdec. eauto.
Qed.

Lemma FromServiceClientError_decodes_witness :
  FromServiceClientError string id json.Unmarshal site "svc-[1"
    = Ok (CE (mkCommonEdgexError (addCallerInformation site) KindServerError
                "Client error" json.SyntaxError)).
Proof.
  exact (proj1 (proj1 FromServiceClientError_decodes string id json.Unmarshal
                  site "svc-[1" "svc" "[1" [] eq_refl)).
Defined.

(** A hyphen inside the document ends the second segment early: the
    decoder sees a truncated document. *)
Lemma FromServiceClientError_hyphen_in_document :
  FromServiceClientError string id json.Unmarshal site ("svc-" +:+ hyphen_document)
    = Ok (CE (mkCommonEdgexError (addCallerInformation site) KindServerError
                "Client error" json.SyntaxError)).
Proof. by vm_compute. Qed.

(** * Further properties *)

Import vocabulary.

(** ** More on the response *)

Lemma ResponseMap_dom : dom ResponseMap = list_to_set Kinds.
Proof. by vm_compute. Qed.

Lemma ResponseMap_absent (k : Code) : k ∉ Kinds <-> ResponseMap !! k = None.
Proof.
  rewrite <- not_elem_of_dom, ResponseMap_dom.
  by rewrite elem_of_list_to_set.
Qed.

(** The entries of the table, by cases on the key. *)
Lemma ResponseMap_entries (k : Code) (status : Z) :
  ResponseMap !! k = Some status ->
  k ∈ Kinds /\ status ∈ [404%Z; 409%Z; 413%Z; 500%Z].
Proof.
  intros Hk.
  assert (Hin : k ∈ Kinds).
  { apply (elem_of_list_to_set (C := gset string)).
    rewrite <- ResponseMap_dom. apply elem_of_dom. eauto. }
  split; [assumption|].
  unfold Kinds in Hin.
  repeat (apply elem_of_cons in Hin as [->|Hin];
          [vm_compute in Hk; injection Hk as <-;
           repeat first [apply list_elem_of_here | apply list_elem_of_further]|]).
  by apply elem_of_nil in Hin.
Qed.

(** The table holds no status other than these, and an absent kind reads
    as 0. *)
Lemma ResponseMap_at_values (k : Code) :
  ResponseMap_at k ∈ [0%Z; 404%Z; 409%Z; 413%Z; 500%Z].
Proof.
  unfold ResponseMap_at. destruct (ResponseMap !! k) as [status|] eqn:Hk; simpl.
  - apply ResponseMap_entries in Hk as [_ Hk]. by apply list_elem_of_further.
  - apply list_elem_of_here.
Qed.

Lemma ResponseMap_at_zero (k : Code) : ResponseMap_at k = 0%Z <-> k ∉ Kinds.
Proof.
  rewrite ResponseMap_absent. unfold ResponseMap_at.
  destruct (ResponseMap !! k) as [status|] eqn:Hk; simpl; [|done].
  split; [|done]. intros ->.
  apply ResponseMap_entries in Hk as [_ Hk].
  repeat (apply elem_of_cons in Hk as [[=]|Hk]).
  by apply elem_of_nil in Hk.
Qed.

Lemma Kind_found (e : error) (ce : CommonEdgexError) :
  errors_As e = Some ce -> Kind e = CommonEdgexError.Kind ce.
Proof. intros H. unfold Kind. by rewrite H. Qed.

Lemma Kind_not_found (e : error) : errors_As e = None -> Kind e = KindUnknown.
Proof. intros H. unfold Kind. by rewrite H. Qed.

(** X1. When [Kind(e)] is one of the seven constants, which it is for
    every error without a structured error in its chain, [ToHttpResponse]
    only adds calls to those the writer has already received, and the calls
    it adds start with the status the table gives for [Kind(e)], followed by
    a body: no body is written before a status, whatever the encoder. *)
Theorem ToHttpResponse_first_status (e : error) (w : ResponseWriter)
    (decoder : Decoder) :
  Kind e ∈ Kinds ->
  ToHttpResponse e w decoder = w ++ ToHttpResponse e [] decoder /\
  exists status body rest,
    ResponseMap !! Kind e = Some status /\
    ToHttpResponse e [] decoder = WriteHeader status :: Write body :: rest.
Proof.
  intros Hkind.
  destruct (ResponseMap !! Kind e) as [status|] eqn:Hstatus;
    [|by apply ResponseMap_absent in Hstatus].
  assert (Hat : ResponseMap_at (Kind e) = status)
    by (unfold ResponseMap_at; by rewrite Hstatus).
  destruct (errors_As e) as [ce|] eqn:Has.
  - rewrite !(ToHttpResponse_found e _ decoder ce Has).
    rewrite <- (Kind_found e ce Has), Hat.
    split; [reflexivity|]. simpl. eauto.
  - rewrite !(ToHttpResponse_not_found e _ decoder Has).
    rewrite (Kind_not_found e Has) in Hstatus. injection Hstatus as <-.
    destruct (is_nil (decoder e).2); (split; [reflexivity|]); simpl; eauto.
Qed.

Lemma ToHttpResponse_first_status_witness :
  exists status body rest,
    ResponseMap !! Kind nested_sample = Some status /\
    ToHttpResponse nested_sample [] succeeding_decoder =
      WriteHeader status :: Write body :: rest.
Proof.
  apply (proj2 (ToHttpResponse_first_status nested_sample [] succeeding_decoder
                  ltac:(apply (bool_decide_unpack _); by vm_compute))).
Defined.

(** X2. The response to an error whose chain has a structured error is the
    response to that structured error alone: the layers that wrap it reach
    neither the status nor the encoder. *)
Theorem ToHttpResponse_of_found (e : error) (w : ResponseWriter)
    (decoder : Decoder) (ce : CommonEdgexError) :
  errors_As e = Some ce ->
  ToHttpResponse e w decoder = ToHttpResponse (CE ce) w decoder.
Proof.
  intros Has.
  rewrite (ToHttpResponse_found e w decoder ce Has).
  by rewrite (ToHttpResponse_found (CE ce) w decoder ce eq_refl).
Qed.

Lemma ToHttpResponse_of_found_witness :
  ToHttpResponse nested_sample [] succeeding_decoder =
  ToHttpResponse
    (CE (mkCommonEdgexError "op1" KindEntityDoesNotExistError "lookup"
           (CE (mkCommonEdgexError "op2" KindDatabaseError "query"
                  (errorString "connection reset")))))
    [] succeeding_decoder.
Proof. apply (ToHttpResponse_of_found nested_sample). reflexivity. Defined.

(** X3. For a structured error the status written is 0 exactly when its
    kind is none of the seven constants: the table has no entry for it and
    no default is substituted. *)
Theorem ToHttpResponse_status_zero (e : error) (decoder : Decoder)
    (ce : CommonEdgexError) :
  errors_As e = Some ce ->
  (statuses (ToHttpResponse e [] decoder) = [0%Z] <->
   CommonEdgexError.Kind ce ∉ Kinds).
Proof.
  intros Has. rewrite (ToHttpResponse_found e [] decoder ce Has).
  rewrite <- ResponseMap_at_zero. simpl. split; congruence.
Qed.

Lemma ToHttpResponse_status_zero_witness :
  statuses (ToHttpResponse (CE (mkCommonEdgexError "op" "Timeout" "slow" nil))
              [] succeeding_decoder) = [0%Z].
Proof.
  apply (proj2 (ToHttpResponse_status_zero
                  (CE (mkCommonEdgexError "op" "Timeout" "slow" nil))
                  succeeding_decoder
                  (mkCommonEdgexError "op" "Timeout" "slow" nil) eq_refl)).
  apply (bool_decide_unpack _). by vm_compute.
Defined.

(** X4. When [Kind(e)] is one of the seven constants, one status and one
    body are written exactly when the chain has a structured error or the
    encoder fails on the error; otherwise, the chain having none and the
    encoder succeeding, two of each are written. *)
Theorem ToHttpResponse_once_iff (e : error) (decoder : Decoder) :
  Kind e ∈ Kinds ->
  let w := ToHttpResponse e [] decoder in
  (length (statuses w) = 1%nat /\ length (bodies w) = 1%nat <->
   errors_As e <> None \/ is_nil (decoder e).2 = false) /\
  (length (statuses w) = 2%nat /\ length (bodies w) = 2%nat <->
   errors_As e = None /\ is_nil (decoder e).2 = true).
Proof.
  intros _. simpl. destruct (errors_As e) as [ce|] eqn:Has.
  - rewrite (ToHttpResponse_found e [] decoder ce Has). simpl.
    intuition (discriminate || congruence).
  - rewrite (ToHttpResponse_not_found e [] decoder Has).
    destruct (is_nil (decoder e).2); simpl;
      intuition (discriminate || congruence).
Qed.

Lemma ToHttpResponse_once_iff_witness :
  length (statuses (ToHttpResponse nested_sample [] failing_decoder)) = 1%nat /\
  length (bodies (ToHttpResponse nested_sample [] failing_decoder)) = 1%nat.
Proof.
  apply (proj2 (proj1 (ToHttpResponse_once_iff nested_sample failing_decoder
                         ltac:(apply (bool_decide_unpack _); by vm_compute)))).
  left. discriminate.
Defined.

(** X5. Every status [ToHttpResponse] writes is 0, 404, 409, 413 or 500:
    it never reports a success or a redirection. *)
Theorem ToHttpResponse_statuses (e : error) (decoder : Decoder) (status : Z) :
  status ∈ statuses (ToHttpResponse e [] decoder) ->
  status ∈ [0%Z; 404%Z; 409%Z; 413%Z; 500%Z].
Proof.
  destruct (errors_As e) as [ce|] eqn:Has.
  - rewrite (ToHttpResponse_found e [] decoder ce Has). simpl.
    intros ->%list_elem_of_singleton. apply ResponseMap_at_values.
  - rewrite (ToHttpResponse_not_found e [] decoder Has).
    destruct (is_nil (decoder e).2); simpl; intros Hin;
      repeat (apply elem_of_cons in Hin as [->|Hin];
              [repeat first [apply list_elem_of_here | apply list_elem_of_further]|]);
      by apply elem_of_nil in Hin.
Qed.

Lemma ToHttpResponse_statuses_witness :
  (409%Z : Z) ∈ [0%Z; 404%Z; 409%Z; 413%Z; 500%Z].
Proof.
  apply (ToHttpResponse_statuses
           (CE (mkCommonEdgexError "op" KindEntityStateError "locked" nil))
           failing_decoder 409%Z).
  vm_compute. apply list_elem_of_here.
Defined.

(** ** More on the error of a service client *)

Lemma append_cons (c : ascii) (a b : string) :
  String c a +:+ b = String c (a +:+ b).
Proof. reflexivity. Qed.

Lemma split_from_not_empty (sep : ascii) (s cur : string) :
  strings.split_from sep cur s <> [].
Proof.
  revert cur. induction s as [|c s IH]; intros cur; simpl; [discriminate|].
  destruct (Ascii.eqb c sep); [discriminate | apply IH].
Qed.

(** A string with the separator has two segments at least. *)
Lemma split_from_present (sep : ascii) (s cur : string) :
  strings.Contains s sep = true ->
  exists first segment others,
    strings.split_from sep cur s = first :: segment :: others.
Proof.
  revert cur. induction s as [|c s IH]; intros cur Hpresent; simpl in *;
    [discriminate|].
  destruct (Ascii.eqb c sep); simpl in Hpresent.
  - destruct (strings.split_from sep EmptyString s) as [|segment others] eqn:Hs.
    + by apply split_from_not_empty in Hs.
    + eauto.
  - by apply IH.
Qed.

(** The first segment ends at the first separator. *)
Lemma split_from_first (sep : ascii) (a b cur : string) :
  strings.Contains a sep = false ->
  strings.split_from sep cur (a +:+ String sep b) =
    (cur +:+ a) :: strings.split_from sep EmptyString b.
Proof.
  revert cur. induction a as [|c a IH]; intros cur Habsent.
  - change (EmptyString +:+ String sep b) with (String sep b). simpl.
    by rewrite Ascii.eqb_refl, append_empty.
  - rewrite append_cons. simpl in *.
    apply orb_false_iff in Habsent as [-> Hrest].
    rewrite (IH _ Hrest), append_assoc. reflexivity.
Qed.

Lemma Split_two (a b : string) (sep : ascii) :
  strings.Contains a sep = false ->
  strings.Contains b sep = false ->
  strings.Split (a +:+ String sep b) sep = [a; b].
Proof.
  intros Ha Hb. unfold strings.Split.
  rewrite (split_from_first _ _ _ _ Ha).
  by rewrite (split_from_absent _ _ _ Hb).
Qed.

Lemma Split_three (a b rest : string) (sep : ascii) :
  strings.Contains a sep = false ->
  strings.Contains b sep = false ->
  strings.Split (a +:+ String sep (b +:+ String sep rest)) sep =
    a :: b :: strings.Split rest sep.
Proof.
  intros Ha Hb. unfold strings.Split.
  rewrite (split_from_first _ _ _ _ Ha).
  by rewrite (split_from_first _ _ _ _ Hb).
Qed.

Section FromServiceClientError_more.

Context {ErrServiceClient : Type}.
Variable ErrServiceClient_Error : ErrServiceClient -> string.
Variable json_Unmarshal :
  list Byte.byte -> CommonEdgexError -> CommonEdgexError * error.
Variable frame : Frame.

Let decode :=
  FromServiceClientError ErrServiceClient ErrServiceClient_Error
    json_Unmarshal frame.

(** X6. [FromServiceClientError] panics exactly when the error string has
    no [-]; with one it returns a [CommonEdgexError] value, whatever the
    JSON decoder makes of the segment. *)
Theorem FromServiceClientError_panics_iff (esc : ErrServiceClient) :
  (decode esc = Panic (IndexOutOfRange 1 1) <->
   strings.Contains (ErrServiceClient_Error esc) "-" = false) /\
  (strings.Contains (ErrServiceClient_Error esc) "-" = true ->
   exists ce, decode esc = Ok (CE ce)).
Proof.
  unfold decode.
  assert (Hpresent :
    strings.Contains (ErrServiceClient_Error esc) "-" = true ->
    exists ce,
      FromServiceClientError ErrServiceClient ErrServiceClient_Error
        json_Unmarshal frame esc = Ok (CE ce)).
  { intros H.
    destruct (split_from_present "-" _ EmptyString H)
      as (first & segment & others & Hsplit).
    rewrite (FromServiceClientError_second_segment _ _ _ _ _ _ _ Hsplit).
    eauto. }
  split; [|exact Hpresent]. split.
  - intros Hpanic.
    destruct (strings.Contains (ErrServiceClient_Error esc) "-") eqn:H;
      [|reflexivity].
    destruct (Hpresent eq_refl) as [ce Hce]. congruence.
  - apply FromServiceClientError_no_delimiter.
Qed.

End FromServiceClientError_more.

Lemma FromServiceClientError_panics_iff_witness :
  exists ce,
    FromServiceClientError string id json.Unmarshal site "500 - oops" = Ok (CE ce).
Proof.
  apply (proj2 (FromServiceClientError_panics_iff id json.Unmarshal site
                  "500 - oops")).
  reflexivity.
Defined.

(** X7. Only the text between the first and the second [-] of the error
    string is decoded: what precedes the first [-] and what follows the
    second one do not reach the result. *)
Theorem FromServiceClientError_second_segment_only
    (json_Unmarshal : list Byte.byte -> CommonEdgexError -> CommonEdgexError * error)
    (frame : Frame) (a a' b rest : string) :
  strings.Contains a "-" = false ->
  strings.Contains a' "-" = false ->
  strings.Contains b "-" = false ->
  FromServiceClientError string id json_Unmarshal frame
    (a +:+ "-" +:+ b +:+ "-" +:+ rest) =
  FromServiceClientError string id json_Unmarshal frame (a' +:+ "-" +:+ b).
Proof.
  intros Ha Ha' Hb.
  change (a +:+ "-" +:+ b +:+ "-" +:+ rest)
    with (a +:+ String "-" (b +:+ String "-" rest)).
  change (a' +:+ "-" +:+ b) with (a' +:+ String "-" b).
  rewrite (FromServiceClientError_second_segment id json_Unmarshal frame
             (a +:+ String "-" (b +:+ String "-" rest)) a b
             (strings.Split rest "-") (Split_three a b rest "-" Ha Hb)).
  by rewrite (FromServiceClientError_second_segment id json_Unmarshal frame
             (a' +:+ String "-" b) a' b [] (Split_two a' b "-" Ha' Hb)).
Qed.

Lemma FromServiceClientError_second_segment_only_witness :
  FromServiceClientError string id json.Unmarshal site
    ("404" +:+ "-" +:+ "null" +:+ "-" +:+ "ignored") =
  FromServiceClientError string id json.Unmarshal site ("svc" +:+ "-" +:+ "null").
Proof.
  apply (FromServiceClientError_second_segment_only json.Unmarshal site
           "404" "svc" "null" "ignored"); reflexivity.
Defined.

(** ** Decoding a document *)

Lemma plain_char_spec (c : ascii) :
  plain_char c = true ->
  Ascii.eqb c json.quote = false /\ Ascii.eqb c "\" = false /\
  Ascii.eqb c "-" = false /\ (nat_of_ascii c <? 32) = false.
Proof.
  unfold plain_char. intros H.
  repeat (apply andb_true_iff in H as [H ?]).
  repeat split.
  - apply Ascii.eqb_neq. intros ->. discriminate.
  - apply Ascii.eqb_neq. intros ->. discriminate.
  - apply Ascii.eqb_neq. intros ->. discriminate.
  - apply Nat.ltb_ge. by apply Nat.leb_le.
Qed.

Lemma plain_no_hyphen (s : string) :
  plain s = true -> strings.Contains s "-" = false.
Proof.
  induction s as [|c s IH]; simpl; [reflexivity|].
  intros [Hc Hs]%andb_true_iff.
  destruct (plain_char_spec c Hc) as (_ & _ & -> & _). by apply IH.
Qed.

Lemma Contains_append (a b : string) (c : ascii) :
  strings.Contains (a +:+ b) c = strings.Contains a c || strings.Contains b c.
Proof.
  induction a as [|x a IH]; [reflexivity|].
  rewrite append_cons. simpl. by rewrite IH, orb_assoc.
Qed.

(** A plain string is read as itself up to its closing quote. *)
Lemma string_body_plain (s acc rest : string) :
  plain s = true ->
  json.string_body acc (s +:+ String json.quote rest) = Some (acc +:+ s, rest).
Proof.
  revert acc. induction s as [|c s IH]; intros acc Hplain.
  - change (EmptyString +:+ String json.quote rest) with (String json.quote rest).
    simpl. by rewrite append_empty.
  - rewrite append_cons. simpl in Hplain.
    apply andb_true_iff in Hplain as [Hc Hs].
    destruct (plain_char_spec c Hc) as (Hq & Hb & _ & Hctl).
    simpl. rewrite Hq, Hb, Hctl, (IH _ Hs), append_assoc. reflexivity.
Qed.

Lemma parse_value_plain (fuel : nat) (s rest : string) :
  plain s = true ->
  json.parse_value (S fuel) (String json.quote (s +:+ String json.quote rest)) =
    Some (json.Str s, rest).
Proof.
  intros Hplain. simpl. by rewrite (string_body_plain s EmptyString rest Hplain).
Qed.

Lemma parse_fuel (c : ascii) (s : string) :
  exists fuel, (2 * String.length (String c s) + 2 = S (S (S (S fuel))))%nat.
Proof. exists (2 * String.length s)%nat. simpl. lia. Qed.

Lemma parse_value_plain_at (fuel' fuel : nat) (s rest : string) :
  fuel' = S fuel -> plain s = true ->
  json.parse_value fuel' (String json.quote (s +:+ String json.quote rest)) =
    Some (json.Str s, rest).
Proof. intros ->. apply parse_value_plain. Qed.

(** One member: a name, a colon and a value, then a comma and more members
    or the closing brace. *)
Lemma parse_members_last (fuel : nat) (name text rest : string) :
  plain name = true -> plain text = true ->
  json.parse_members (S (S fuel))
    (String json.quote (name +:+ String json.quote (String ":"
       (String json.quote (text +:+ String json.quote (String "}" rest)))))) =
    Some ([(name, json.Str text)], rest).
Proof.
  intros Hname Htext.
  remember (S fuel) as fuel' eqn:Hfuel.
  simpl.
  rewrite (string_body_plain name EmptyString _ Hname). simpl.
  rewrite (parse_value_plain_at fuel' fuel text _ Hfuel Htext). reflexivity.
Qed.

Lemma parse_members_more (fuel : nat) (name text rest rest' : string)
    (members : list (string * json.value)) :
  plain name = true -> plain text = true ->
  json.parse_members (S fuel) rest = Some (members, rest') ->
  json.parse_members (S (S fuel))
    (String json.quote (name +:+ String json.quote (String ":"
       (String json.quote (text +:+ String json.quote (String "," rest)))))) =
    Some ((name, json.Str text) :: members, rest').
Proof.
  intros Hname Htext Hrest.
  remember (S fuel) as fuel' eqn:Hfuel.
  simpl.
  rewrite (string_body_plain name EmptyString _ Hname). simpl.
  rewrite (parse_value_plain_at fuel' fuel text _ Hfuel Htext). simpl.
  by rewrite Hrest.
Qed.

Lemma parse_document (k m : string) :
  plain k = true -> plain m = true ->
  json.parse (document_of k m) =
    Some (json.Object [("kind", json.Str k); ("message", json.Str m)]).
Proof.
  intros Hk Hm. unfold json.parse.
  change (document_of k m)
    with (String "{" (String json.quote ("kind" +:+ String json.quote (String ":"
           (String json.quote (k +:+ String json.quote (String ","
             (String json.quote ("message" +:+ String json.quote (String ":"
               (String json.quote (m +:+ String json.quote "}")))))))))))).
  match goal with
  | |- context [String.length (String ?c ?s)] =>
      destruct (parse_fuel c s) as [fuel ->]
  end.
  remember (S (S (S fuel))) as fuel3 eqn:Hfuel.
  simpl. rewrite Hfuel.
  rewrite (parse_members_more (S fuel) "kind" k _ EmptyString
             [("message", json.Str m)] eq_refl Hk).
  - reflexivity.
  - apply (parse_members_last fuel "message" m EmptyString eq_refl Hm).
Qed.

Lemma document_no_hyphen (k m : string) :
  plain k = true -> plain m = true ->
  strings.Contains (document_of k m) "-" = false.
Proof.
  intros Hk Hm. unfold document_of.
  rewrite !Contains_append, (plain_no_hyphen k Hk), (plain_no_hyphen m Hm).
  reflexivity.
Qed.

(** X8. A document whose kind and message are plain strings, after any
    prefix without [-], decodes to the error with that kind and that
    message, with no [op] and no nested error. *)
Theorem FromServiceClientError_document (frame : Frame) (prefix k m : string) :
  strings.Contains prefix "-" = false ->
  plain k = true ->
  plain m = true ->
  FromServiceClientError string id json.Unmarshal frame
    (prefix +:+ "-" +:+ document_of k m) =
  Ok (CE (mkCommonEdgexError "" k m nil)).
Proof.
  intros Hprefix Hk Hm.
  change (prefix +:+ "-" +:+ document_of k m)
    with (prefix +:+ String "-" (document_of k m)).
  rewrite (FromServiceClientError_second_segment id json.Unmarshal frame
             (prefix +:+ String "-" (document_of k m)) prefix (document_of k m) []
             (Split_two _ _ "-" Hprefix (document_no_hyphen k m Hk Hm))).
  unfold json.Unmarshal, bytes.
  rewrite string_of_list_byte_of_string, (parse_document k m Hk Hm).
  reflexivity.
Qed.

Lemma FromServiceClientError_document_witness :
  FromServiceClientError string id json.Unmarshal site
    ("409 " +:+ "-" +:+ document_of "InvalidState" "device is locked") =
  Ok (CE (mkCommonEdgexError "" "InvalidState" "device is locked" nil)).
Proof.
  apply (FromServiceClientError_document site "409 " "InvalidState"
           "device is locked"); reflexivity.
Defined.

(** The decoder leaves [op] and [err] as they are and reports one of its
    two errors, or none. *)
Lemma assign_fields (members : list (string * json.value))
    (e : CommonEdgexError) (saved : error) :
  CommonEdgexError.op (json.assign members e saved).1 = CommonEdgexError.op e /\
  CommonEdgexError.err (json.assign members e saved).1 = CommonEdgexError.err e /\
  ((json.assign members e saved).2 = saved \/
   (json.assign members e saved).2 = json.UnmarshalTypeError).
Proof.
  revert e saved. induction members as [|[key v] members IH]; intros e saved.
  - simpl. auto.
  - simpl. destruct (json.field_of key) as [f|]; [|apply IH].
    destruct v; try apply IH.
    + destruct (IH e (json.saveError saved json.UnmarshalTypeError))
        as (-> & -> & [->| ->]); repeat split; auto.
      unfold json.saveError. destruct (is_nil saved); auto.
    + destruct (IH e (json.saveError saved json.UnmarshalTypeError))
        as (-> & -> & [->| ->]); repeat split; auto.
      unfold json.saveError. destruct (is_nil saved); auto.
    + destruct (IH (json.set_field f s e) saved) as (-> & -> & H).
      repeat split; [| |exact H]; by destruct e, f.
    + destruct (IH e (json.saveError saved json.UnmarshalTypeError))
        as (-> & -> & [->| ->]); repeat split; auto.
      unfold json.saveError. destruct (is_nil saved); auto.
    + destruct (IH e (json.saveError saved json.UnmarshalTypeError))
        as (-> & -> & [->| ->]); repeat split; auto.
      unfold json.saveError. destruct (is_nil saved); auto.
Qed.

Lemma Unmarshal_fields (data : list Byte.byte) :
  CommonEdgexError.op (json.Unmarshal data zero).1 = EmptyString /\
  CommonEdgexError.err (json.Unmarshal data zero).1 = nil /\
  ((json.Unmarshal data zero).2 = nil \/
   (json.Unmarshal data zero).2 = json.SyntaxError \/
   (json.Unmarshal data zero).2 = json.UnmarshalTypeError).
Proof.
  unfold json.Unmarshal.
  destruct (json.parse (string_of_list_byte data)) as [[]|]; simpl; auto.
  destruct (assign_fields members zero nil) as (-> & -> & [->| ->]); auto.
Qed.

(** X9. An error obtained from a service client never carries a chain:
    either it is a decoded error, with no [op] and no nested error, or it
    is the "Client error" made at this call site, of kind
    [KindServerError], that wraps the JSON decoder's error. *)
Theorem FromServiceClientError_result (frame : Frame) (s : string) (v : error) :
  FromServiceClientError string id json.Unmarshal frame s = Ok v ->
  exists ce,
    v = CE ce /\
    ((CommonEdgexError.op ce = EmptyString /\ CommonEdgexError.err ce = nil) \/
     (ce = NewCommonEdgexError frame KindServerError "Client error" json.SyntaxError \/
      ce = NewCommonEdgexError frame KindServerError "Client error"
             json.UnmarshalTypeError)).
Proof.
  unfold FromServiceClientError.
  destruct (strings.Split (id s) "-" !! 1%nat) as [segment|]; [|discriminate].
  destruct (Unmarshal_fields (bytes segment)) as (Hop & Herr & Hres).
  destruct (json.Unmarshal (bytes segment) zero) as [e err]. simpl in *.
  destruct Hres as [->|[->| ->]]; simpl; intros [= <-]; eauto 6.
Qed.

Lemma FromServiceClientError_result_witness :
  exists ce,
    (CE (mkCommonEdgexError "" "NotFound" "missing" nil)) = CE ce /\
    ((CommonEdgexError.op ce = EmptyString /\ CommonEdgexError.err ce = nil) \/
     (ce = NewCommonEdgexError site KindServerError "Client error" json.SyntaxError \/
      ce = NewCommonEdgexError site KindServerError "Client error"
             json.UnmarshalTypeError)).
Proof.
  apply (FromServiceClientError_result site ("svc-" +:+ document)).
  by vm_compute.
Defined.

(** ** Matching by type *)

(** With a [CommonEdgexError] as target the loop stops at the first
    structured error of the chain, on the answer of its [Is] method. *)
Lemma errors_Is_structured (equal : error -> error -> bool)
    (e : error) (target : CommonEdgexError) :
  (forall x t, equal x (CE t) = true -> structured x = true) ->
  (errors.Is equal e (CE target) = true <-> is_Some (errors_As e)).
Proof.
  intros Hequal. unfold errors.Is. simpl is_nil. cbv iota.
  assert (Hother : forall x, structured x = false -> equal x (CE target) = false).
  { intros x Hx. destruct (equal x (CE target)) eqn:Heq; [|reflexivity].
    apply Hequal in Heq. congruence. }
  induction e as [| s | msg inner IH | errMsg | ce]; simpl.
  - split; [discriminate | by intros [? ?]].
  - rewrite (Hother (errorString s) eq_refl).
    split; [discriminate | by intros [? ?]].
  - by rewrite (Hother (wrapError msg inner) eq_refl).
  - rewrite (Hother (ErrContractInvalid errMsg) eq_refl).
    split; [discriminate | by intros [? ?]].
  - destruct ce as [op k m inner]. simpl. rewrite orb_true_r. simpl.
    split; eauto.
Qed.

(** X10. With a [CommonEdgexError] as target, [errors.Is] is true exactly
    when the chain of the error has a [CommonEdgexError], whatever the kind
    and the message of either: the [Is] method matches on the type alone.
    The comparison [==] is only assumed to be false between values of
    different dynamic types. *)
Theorem errors_Is_by_type (equal : error -> error -> bool)
    (e : error) (target : CommonEdgexError) :
  (forall x t, equal x (CE t) = true -> structured x = true) ->
  (errors.Is equal e (CE target) = true <-> is_Some (errors_As e)) /\
  (forall other : CommonEdgexError,
      errors.Is equal e (CE target) = errors.Is equal e (CE other)).
Proof.
  intros Hequal. split; [by apply errors_Is_structured|].
  intros other.
  pose proof (errors_Is_structured equal e target Hequal) as Htarget.
  pose proof (errors_Is_structured equal e other Hequal) as Hother.
  destruct (errors.Is equal e (CE target)), (errors.Is equal e (CE other));
    try reflexivity.
  - symmetry. apply (proj2 Hother), (proj1 Htarget). reflexivity.
  - apply (proj2 Htarget), (proj1 Hother). reflexivity.
Qed.

Lemma errors_Is_by_type_witness :
  errors.Is (fun _ _ => false) nested_sample
    (CE (mkCommonEdgexError "" KindLimitExceeded "" nil)) = true.
Proof.
  apply (proj2 (proj1 (errors_Is_by_type (fun _ _ => false) nested_sample
                  (mkCommonEdgexError "" KindLimitExceeded "" nil)
                  ltac:(discriminate)))).
  by eexists.
Defined.

(** ** Contract errors *)

Lemma errors_As_wrap (msgs : list string) (e : error) :
  errors_As (wrap msgs e) = errors_As e.
Proof. induction msgs as [|msg msgs IH]; [reflexivity | exact IH]. Qed.

(** X11. An [ErrContractInvalid] gives back the message it was made with
    and is never a structured error: under any number of [fmt.Errorf]
    layers its kind is [KindUnknown], [errors.Is] does not match it with a
    [CommonEdgexError], and the response to it starts with status 500. *)
Theorem ErrContractInvalid_unclassified (message : string) (msgs : list string)
    (decoder : Decoder) :
  Error (NewErrContractInvalid message) = Ok message /\
  Kind (wrap msgs (NewErrContractInvalid message)) = KindUnknown /\
  (forall equal target,
      (forall x t, equal x (CE t) = true -> structured x = true) ->
      errors.Is equal (wrap msgs (NewErrContractInvalid message)) (CE target)
        = false) /\
  exists body rest,
    ToHttpResponse (wrap msgs (NewErrContractInvalid message)) [] decoder =
      WriteHeader 500 :: Write body :: rest.
Proof.
  assert (Has : errors_As (wrap msgs (NewErrContractInvalid message)) = None)
    by (by rewrite errors_As_wrap).
  split; [reflexivity|]. split; [by apply Kind_not_found|]. split.
  - intros equal target Hequal.
    destruct (errors.Is equal
                (wrap msgs (NewErrContractInvalid message)) (CE target)) eqn:His;
      [|reflexivity].
    apply (errors_Is_structured equal _ target Hequal) in His.
    rewrite Has in His. by destruct His.
  - rewrite (ToHttpResponse_not_found _ [] decoder Has).
    destruct (is_nil (decoder _).2); simpl; eauto.
Qed.

Lemma ErrContractInvalid_unclassified_witness :
  errors.Is (fun _ _ => false)
    (wrap ["create device"; "validate"] (NewErrContractInvalid "name is empty"))
    (CE zero) = false.
Proof.
  apply (proj1 (proj2 (proj2 (ErrContractInvalid_unclassified "name is empty"
                  ["create device"; "validate"] failing_decoder)))
           (fun _ _ => false) zero).
  discriminate.
Defined.

(** ** Classification is sound *)

(** X12. [Kind] invents nothing: a result other than [KindUnknown] is the
    [Kind] field of a [CommonEdgexError] of the chain, the first one. *)
Theorem Kind_from_chain (e : error) :
  Kind e <> KindUnknown ->
  exists pre ce post,
    chain e = pre ++ CE ce :: post /\
    Forall (fun x => structured x = false) pre /\
    CommonEdgexError.Kind ce = Kind e.
Proof.
  intros Hkind. destruct (errors_As e) as [ce|] eqn:Has.
  - destruct (errors_As_Some e ce Has) as (pre & post & Hchain & Hpre).
    exists pre, ce, post. by rewrite (Kind_found e ce Has).
  - by rewrite (Kind_not_found e Has) in Hkind.
Qed.

Lemma Kind_from_chain_witness :
  exists pre ce post,
    chain nested_sample = pre ++ CE ce :: post /\
    Forall (fun x => structured x = false) pre /\
    CommonEdgexError.Kind ce = Kind nested_sample.
Proof. apply (Kind_from_chain nested_sample). discriminate. Defined.

(** ** The error string of a service client *)

(** The form [<status> - <body>] is an instance of the form of the spec. *)
Lemma status_form (status : Z) (body : string) :
  fmt_d status +:+ " - " +:+ body =
  types.Error (types.mkErrServiceClient (fmt_d status +:+ " ") (" " +:+ body)).
Proof. unfold types.Error. simpl. by rewrite append_assoc. Qed.

